(** * chonkie.refinery.base: the BaseRefinery class

    A shallow embedding of [src/chonkie/refinery/base.py] and the
    properties of its constructor, of [refine_batch] and of the
    shape-dispatching entry point [__call__]. *)

From Stdlib Require Import ZArith List String Ascii Lia DecimalString.
From Stdlib Require DecimalZ.
Import ListNotations.

Local Open Scope Z_scope.
Local Open Scope list_scope.

(** ** Exceptions and the state-and-exception monad *)

Inductive exn : Type :=
| ValueError (msg : string)
| NotImplementedError (msg : string)
| TypeError (msg : string)
| Exception (cls msg : string).

Inductive result (A : Type) : Type :=
| Ok (a : A)
| Raise (e : exn).
Arguments Ok {A} a.
Arguments Raise {A} e.

(** A computation over a state [S]: it returns or raises, and the state
    it leaves behind is kept in both cases. *)
Definition SE (S A : Type) : Type := S -> result A * S.

Definition ret {S A} (a : A) : SE S A := fun st => (Ok a, st).

Definition raise {S A} (e : exn) : SE S A := fun st => (Raise e, st).

Definition bind {S A B} (m : SE S A) (k : A -> SE S B) : SE S B :=
  fun st =>
    match m st with
    | (Ok a, st') => k a st'
    | (Raise e, st') => (Raise e, st')
    end.

Declare Scope se_scope.
Delimit Scope se_scope with se.
Notation "x <- m ;; k" := (bind m (fun x => k))
  (at level 61, m at next level, right associativity) : se_scope.
Notation "m ;;; k" := (bind m (fun _ => k))
  (at level 61, right associativity) : se_scope.
Local Open Scope se_scope.

(** ** Python values and the program state *)

Set Warnings "-register-all".

Section Model.

(** [chonkie.types.Chunk] is imported by the module and is opaque to it:
    the only thing the class does with a chunk is [isinstance(_, Chunk)]. *)
Context {Chunk : Type}.

(** Everything a concrete strategy may read or write besides the instance
    (module globals, models, caches, ...). *)
Context {Heap : Type}.

(** The dynamically typed arguments [__call__] can receive. *)
Inductive value : Type :=
| VNone
| VBool (b : bool)
| VInt (z : Z)
| VStr (s : string)
| VChunk (c : Chunk)
| VTuple (items : list value)
| VList (items : list value).

(** [isinstance(v, list)], giving the items when it holds. *)
Definition as_list (v : value) : option (list value) :=
  match v with
  | VList items => Some items
  | _ => None
  end.

Definition isinstance_list (v : value) : bool :=
  match as_list v with Some _ => true | None => false end.

Definition isinstance_Chunk (v : value) : bool :=
  match v with
  | VChunk _ => true
  | _ => false
  end.

(** [self]: the one attribute [__init__] assigns. *)
Record BaseRefinery : Type := { context_size : Z }.

(** What user code (a strategy's [refine]) can see and change. *)
Record World : Type := { self : BaseRefinery; heap : Heap }.

(** Calls the base class issues, in order. *)
Inductive event : Type :=
| RefineCalled (chunks : value)
| RefineBatchCalled (chunks_batch : list value).

Record State : Type := { world : World; trace : list event }.

(** Strategy code runs over [World]. *)
Definition U : Type -> Type := SE World.

(** Base class code runs over [State], which adds the call log. *)
Definition M : Type -> Type := SE State.

Definition log (ev : event) : M unit :=
  fun st => (Ok tt, {| world := world st; trace := trace st ++ [ev] |}).

Definition lift {A} (u : U A) : M A :=
  fun st =>
    let (r, w) := u (world st) in
    (r, {| world := w; trace := trace st |}).

(** ** The class *)

(** What a concrete subclass supplies: its name and the two abstract
    methods. *)
Record Strategy : Type := {
  __name__ : string;
  refine_impl : value -> U value;
  is_available_impl : U bool
}.

(** [BaseRefinery.__init__(self, context_size=0)] *)
Definition __init__ (context_size : Z) : result BaseRefinery :=
  if context_size <? 0
  then Raise (ValueError "context_size must be non-negative")
  else Ok {| context_size := context_size |}.

(** The parameter's default. *)
Definition default_context_size : Z := 0.

(** The interpreter's default for [sys.get_int_max_str_digits()]. *)
Definition default_int_max_str_digits : nat := 4300.

(** [BaseRefinery.refine]: the body under [@abstractmethod]. *)
Definition refine (chunks : value) : U value :=
  fun w =>
    (Raise (NotImplementedError
              "Refine method must be implemented by subclasses"), w).

(** [BaseRefinery.is_available]: the body under [@abstractmethod]. *)
Definition is_available : U bool :=
  fun w => (Ok true, w).

(** The class as written, with no override. *)
Definition abstract_base : Strategy :=
  {| __name__ := "BaseRefinery";
     refine_impl := refine;
     is_available_impl := is_available |}.

Section Methods.

Variable cls : Strategy.

(** [self.refine(chunks)]: resolved in the instance's class. *)
Definition self_refine (chunks : value) : M value :=
  log (RefineCalled chunks) ;;; lift (refine_impl cls chunks).

(** The list comprehension [[self.refine(chunks) for chunks in it]]:
    the result list is built by appending, left to right. *)
Fixpoint comprehension (it : list value) (acc : list value)
  : M (list value) :=
  match it with
  | [] => ret acc
  | chunks :: it' =>
      r <- self_refine chunks ;;
      comprehension it' (acc ++ [r])
  end.

(** [BaseRefinery.refine_batch] *)
Definition refine_batch (chunks_batch : list value) : M value :=
  log (RefineBatchCalled chunks_batch) ;;;
  (rs <- comprehension chunks_batch [] ;;
   ret (VList rs)).

(** The decimal numeral of an [int]. *)
Definition decimal (n : Z) : string :=
  NilZero.string_of_int (Z.to_int n).

(** The interpreter's limit on the number of decimal digits of an [int]
    that is converted to [str]: [sys.get_int_max_str_digits()], 4300
    unless configured otherwise, 0 for no limit. *)
Variable int_max_str_digits : nat.

(** [str(n)] for an [int], which is how the f-string of [__repr__]
    formats the attribute: the interpreter raises [ValueError] when [n]
    has more digits, sign apart, than the limit. *)
Definition str_int (n : Z) : result string :=
  if ((0 <? int_max_str_digits)%nat
      && (int_max_str_digits <? String.length (decimal (Z.abs n)))%nat)%bool
  then
    Raise
      (ValueError
         ("Exceeds the limit ("
          ++ decimal (Z.of_nat int_max_str_digits)
          ++ " digits) for integer string conversion; use sys.set_int_max_str_digits() to increase the limit")%string)
  else Ok (decimal n).

(** [BaseRefinery.__repr__] *)
Definition __repr__ : M string :=
  fun st =>
    match str_int (context_size (self (world st))) with
    | Ok digits =>
        (Ok (__name__ cls ++ "(context_size=" ++ digits ++ ")")%string, st)
    | Raise e => (Raise e, st)
    end.

Definition invalid_input : exn :=
  ValueError
    "Invalid input type for Refinery: must be List[Chunk] or List[List[Chunk]]".

(** [BaseRefinery.__call__] *)
Definition __call__ (chunks : value) : M value :=
  match as_list chunks with
  | None => ret chunks
  | Some items =>
      match items with
      | [] => ret chunks
      | first :: _ =>
          if isinstance_Chunk first then self_refine chunks
          else
            match as_list first with
            | Some (first0 :: _) =>
                if isinstance_Chunk first0 then refine_batch items
                else raise invalid_input
            | _ => raise invalid_input
            end
      end
  end.

End Methods.

End Model.

(** ** Definitions used in the statements *)

Section Spec.

Context {Chunk Heap : Type}.
Variable cls : @Strategy Chunk Heap.

(** [refine_batch] in the specification's words: "applies [refine]
    independently to each inner sequence, in order, producing a
    same-length outer sequence of results in the same order". *)
Fixpoint refine_each (batch : list value)
  : @M Chunk Heap (list (@value Chunk)) :=
  match batch with
  | [] => ret []
  | seq :: rest =>
      r <- self_refine cls seq ;;
      rs <- refine_each rest ;;
      ret (r :: rs)
  end.

(** The state on entry to [refine_batch]'s comprehension. *)
Definition entered (chunks_batch : list value) (st : @State Chunk Heap)
  : @State Chunk Heap :=
  snd (log (RefineBatchCalled chunks_batch) st).

(** The first element is a non-empty list that starts with a Chunk. *)
Definition starts_with_Chunk (v : @value Chunk) : bool :=
  match as_list v with
  | Some (first0 :: _) => isinstance_Chunk first0
  | _ => false
  end.

(** The attribute as seen from a program state. *)
Definition context_size_of (st : @State Chunk Heap) : Z :=
  context_size (self (world st)).

(** [__call__] applied to each document of a batch, one after the other. *)
Fixpoint call_each (batch : list value)
  : @M Chunk Heap (list (@value Chunk)) :=
  match batch with
  | [] => ret []
  | seq :: rest =>
      r <- __call__ cls seq ;;
      rs <- call_each rest ;;
      ret (r :: rs)
  end.

(** The world reached by running the strategy's [refine] on the logged
    [refine] calls, in log order, and nothing else. *)
Definition replay (evs : list event) (w : @World Heap) : @World Heap :=
  fold_left
    (fun w ev =>
       match ev with
       | RefineCalled chunks => snd (refine_impl cls chunks w)
       | RefineBatchCalled _ => w
       end)
    evs w.

End Spec.

(** ** Two concrete strategies, used to exercise the statements *)

Module Examples.

(** Chunks carry their text; the heap counts the documents refined. *)
Definition text_chunk : Type := string.
Definition counter : Type := nat.

(** Returns its input and counts the call. *)
Definition counting : @Strategy text_chunk counter :=
  {| __name__ := "CountingRefinery";
     refine_impl := fun chunks w =>
       (Ok chunks, {| self := self w; heap := S (heap w) |});
     is_available_impl := fun w => (Ok true, w) |}.

(** Raises on anything that is not a list, otherwise as [counting]. *)
Definition picky : @Strategy text_chunk counter :=
  {| __name__ := "PickyRefinery";
     refine_impl := fun chunks w =>
       if isinstance_list chunks
       then (Ok chunks, {| self := self w; heap := S (heap w) |})
       else (Raise (TypeError "expected a list of chunks"), w);
     is_available_impl := fun w => (Ok true, w) |}.

(** A strategy without side effects: it puts the chunks of a document
    in reverse order and returns anything else as it is. *)
Definition reversed (chunks : @value text_chunk) : @value text_chunk :=
  match chunks with
  | VList items => VList (rev items)
  | _ => chunks
  end.

Definition reversing : @Strategy text_chunk counter :=
  {| __name__ := "ReversingRefinery";
     refine_impl := fun chunks w => (Ok (reversed chunks), w);
     is_available_impl := fun w => (Ok true, w) |}.

(** A strategy whose [refine] assigns [self.context_size]: it adds one
    to the attribute on each call and returns its input. *)
Definition bumping : @Strategy text_chunk counter :=
  {| __name__ := "BumpingRefinery";
     refine_impl := fun chunks w =>
       (Ok chunks,
        {| self := {| context_size := context_size (self w) + 1 |};
           heap := heap w |});
     is_available_impl := fun w => (Ok true, w) |}.

Definition start (n : Z) : @State text_chunk counter :=
  {| world := {| self := {| context_size := n |}; heap := O |};
     trace := [] |}.

Definition doc (texts : list string) : @value text_chunk :=
  VList (map VChunk texts).

End Examples.

(** ** Properties *)

Lemma firstn_prefix {A} (pre post : list A) :
  firstn (List.length pre) (pre ++ post) = pre.
Proof. induction pre as [|x pre IH]; simpl; [now destruct post | now rewrite IH]. Qed.

Lemma firstn_prefix_S {A} (pre post : list A) (x : A) :
  firstn (S (List.length pre)) (pre ++ x :: post) = pre ++ [x].
Proof. induction pre as [|y pre IH]; simpl; [reflexivity | now rewrite <- IH]. Qed.

Section Properties.

Context {Chunk Heap : Type}.
Variable cls : @Strategy Chunk Heap.

(** *** Running one dispatched call *)

Lemma self_refine_run (chunks : value) (st : State) :
  self_refine cls chunks st =
  (fst (refine_impl cls chunks (world st)),
   {| world := snd (refine_impl cls chunks (world st));
      trace := trace st ++ [RefineCalled chunks] |}).
Proof.
  unfold self_refine, bind, log, lift; simpl.
  destruct (refine_impl cls chunks (world st)); reflexivity.
Qed.

Lemma self_refine_trace (chunks : value) (st : State) :
  trace (snd (self_refine cls chunks st)) =
  trace st ++ [RefineCalled chunks].
Proof. rewrite self_refine_run; reflexivity. Qed.

(** *** The comprehension against the specification's wording *)

Lemma comprehension_acc (it acc : list value) (st : State) :
  comprehension cls it acc st =
  (rs <- refine_each cls it ;; ret (acc ++ rs)) st.
Proof.
  revert acc st; induction it as [|chunks it IH]; intros acc st; simpl.
  - unfold bind, ret; simpl. now rewrite app_nil_r.
  - unfold bind.
    destruct (self_refine cls chunks st) as [[r|e] st1]; [|reflexivity].
    rewrite IH. unfold bind, ret.
    destruct (refine_each cls it st1) as [[rs|e] st2]; [|reflexivity].
    now rewrite <- app_assoc.
Qed.

Lemma comprehension_refine_each (it : list value) (st : State) :
  comprehension cls it [] st = refine_each cls it st.
Proof.
  rewrite comprehension_acc. unfold bind, ret; simpl.
  now destruct (refine_each cls it st) as [[rs|e] st1].
Qed.

(** A run of [refine_each] that returns: one result per input, each
    produced by the strategy on the input at the same position, and
    one logged call per input, in input order. *)
Lemma refine_each_ok (batch rs : list value) (st st' : State) :
  refine_each cls batch st = (Ok rs, st') ->
  Forall2 (fun seq r => exists w w', refine_impl cls seq w = (Ok r, w'))
          batch rs /\
  trace st' = trace st ++ map RefineCalled batch.
Proof.
  revert rs st; induction batch as [|seq rest IH]; intros rs st; simpl.
  - unfold ret; intros [= <- <-]. split; [constructor|].
    now rewrite app_nil_r.
  - unfold bind at 1. rewrite self_refine_run.
    destruct (refine_impl cls seq (world st)) as [[r|e] w1] eqn:E;
      simpl; [|discriminate].
    unfold bind, ret.
    match goal with
    | |- context [refine_each cls rest ?s] =>
        destruct (refine_each cls rest s) as [[rs1|e] st2] eqn:E1
    end; [|discriminate].
    intros [= <- <-]. apply IH in E1 as [H1 H2]. simpl in H2. split.
    + constructor; [now exists (world st), w1 | exact H1].
    + rewrite H2, <- app_assoc. reflexivity.
Qed.

(** A run of [refine_each] over [pre ++ seq :: post] in which the
    inputs of [pre] return and [seq] raises stops there. *)
Lemma refine_each_raise (pre post rs : list value) (seq : value)
      (st st1 st2 : State) (e : exn) :
  refine_each cls pre st = (Ok rs, st1) ->
  self_refine cls seq st1 = (Raise e, st2) ->
  refine_each cls (pre ++ seq :: post) st = (Raise e, st2).
Proof.
  revert rs st; induction pre as [|x pre IH]; intros rs st; simpl.
  - unfold ret; intros [= <- <-] H. unfold bind. now rewrite H.
  - unfold bind at 1 3.
    destruct (self_refine cls x st) as [[r|e0] st0]; [|discriminate].
    unfold bind at 1 2, ret.
    destruct (refine_each cls pre st0) as [[rs0|e0] st3] eqn:E;
      [|discriminate].
    intros [= <- <-] H. now rewrite (IH _ _ E H).
Qed.

(** *** [refine_batch] *)

Lemma refine_batch_unfold (batch : list value) (st : State) :
  refine_batch cls batch st =
  (rs <- refine_each cls batch ;; ret (VList rs)) (entered batch st).
Proof.
  unfold refine_batch, entered, bind at 1; simpl.
  unfold bind. now rewrite comprehension_refine_each.
Qed.

(** [refine_each] only appends to the log: calls on a prefix of its
    input, in order. *)
Lemma refine_each_trace (batch : list value) (st : State) :
  exists j : nat,
    trace (snd (refine_each cls batch st)) =
    trace st ++ map RefineCalled (firstn j batch).
Proof.
  revert st; induction batch as [|seq rest IH]; intros st; simpl.
  - exists O. simpl. now rewrite app_nil_r.
  - unfold bind at 1. rewrite self_refine_run.
    destruct (fst (refine_impl cls seq (world st))) as [r|e].
    + unfold bind, ret.
      match goal with
      | |- context [refine_each cls rest ?s] =>
          destruct (IH s) as [j Hj];
          destruct (refine_each cls rest s) as [[rs|e] st2]
      end; simpl in *; exists (S j); rewrite Hj, <- app_assoc;
        reflexivity.
    + exists 1%nat. reflexivity.
Qed.

(** C1. On a list whose first element is a non-empty list starting with a
    Chunk, [__call__] is [refine_batch] on that list; [refine_batch] is
    the specification's element-by-element application of [refine]; and
    when it returns, it returns a list with one result per inner
    sequence, in order, each the result of [refine] on the sequence at
    the same position, after calling [refine] on the sequences in
    order. *)
Theorem call_on_batch_is_refine_batch :
  (forall (c : Chunk) (inner rest : list value) (st : State),
      __call__ cls (VList (VList (VChunk c :: inner) :: rest)) st =
      refine_batch cls (VList (VChunk c :: inner) :: rest) st) /\
  (forall (batch : list value) (st : State),
      refine_batch cls batch st =
      (rs <- refine_each cls batch ;; ret (VList rs)) (entered batch st)) /\
  (forall (batch : list value) (v : value) (st st' : State),
      refine_batch cls batch st = (Ok v, st') ->
      exists rs : list value,
        v = VList rs /\
        List.length rs = List.length batch /\
        Forall2
          (fun seq r => exists w w', refine_impl cls seq w = (Ok r, w'))
          batch rs /\
        trace st' =
        trace st ++ RefineBatchCalled batch :: map RefineCalled batch).
Proof.
  pose proof refine_batch_unfold as E.
  split; [intros; reflexivity | split; [exact E|]].
  intros batch v st st'. rewrite E. unfold bind, ret.
  destruct (refine_each cls batch (entered batch st)) as [[rs|e] st1] eqn:R;
    [|discriminate].
  intros [= <- <-]. apply refine_each_ok in R as [F T].
  exists rs. repeat split.
  - symmetry. exact (Forall2_length F).
  - exact F.
  - rewrite T. unfold entered; simpl. now rewrite <- app_assoc.
Qed.

(** C7. On the empty batch [refine_batch] returns the empty list; the
    world is untouched and the only call logged is the one to
    [refine_batch] itself, whatever the strategy's [refine] is. *)
Theorem refine_batch_nil (st : State) :
  refine_batch cls [] st =
  (Ok (VList []),
   {| world := world st; trace := trace st ++ [RefineBatchCalled []] |}).
Proof. reflexivity. Qed.

(** C6. If the first [k] inner sequences are refined without error and
    [refine] raises [e] on the [k]-th, [refine_batch] raises [e] in the
    state that call left: no value is returned, and the calls logged are
    those on the sequences up to the [k]-th and none after it. *)
Theorem refine_batch_stops_at_first_error
    (batch rs : list value) (k : nat) (seq : value)
    (st st1 st2 : State) (e : exn) :
  nth_error batch k = Some seq ->
  comprehension cls (firstn k batch) [] (entered batch st) = (Ok rs, st1) ->
  self_refine cls seq st1 = (Raise e, st2) ->
  refine_batch cls batch st = (Raise e, st2) /\
  trace st2 =
  trace st ++ RefineBatchCalled batch
           :: map RefineCalled (firstn (S k) batch).
Proof.
  intros Hk Hpre Hraise.
  destruct (nth_error_split _ _ Hk) as (pre & post & -> & <-).
  rewrite firstn_prefix in Hpre.
  rewrite comprehension_refine_each in Hpre.
  split.
  - rewrite refine_batch_unfold. unfold bind.
    now rewrite (refine_each_raise _ post _ _ _ _ _ _ Hpre Hraise).
  - apply refine_each_ok in Hpre as [_ T].
    pose proof (self_refine_trace seq st1) as T1.
    rewrite Hraise in T1; simpl in T1. rewrite T1, T.
    rewrite firstn_prefix_S, map_app. unfold entered; simpl.
    now rewrite <- !app_assoc.
Qed.

(** *** [__call__] *)

(** C2. On a non-empty list whose first element is a Chunk, [__call__]
    is [refine] on that list. *)
Theorem call_on_chunks_is_refine
    (chunks first : value) (rest : list value) (st : State) :
  as_list chunks = Some (first :: rest) ->
  isinstance_Chunk first = true ->
  __call__ cls chunks st = self_refine cls chunks st.
Proof.
  intros Hl Hc. unfold __call__. now rewrite Hl, Hc.
Qed.

Lemma call_invalid_input (rest : list value) (st : State) :
  (forall first : value,
      isinstance_Chunk first = false ->
      starts_with_Chunk first = false ->
      __call__ cls (VList (first :: rest)) st = (Raise invalid_input, st)) /\
  __call__ cls (VList (VList [] :: rest)) st = (Raise invalid_input, st).
Proof.
  split; [|reflexivity].
  intros first Hc Hs. unfold __call__; simpl. rewrite Hc.
  unfold starts_with_Chunk in Hs.
  destruct (as_list first) as [[|first0 inner]|]; try reflexivity.
  now rewrite Hs.
Qed.

(** C3. On a non-empty list whose first element is neither a Chunk nor a
    non-empty list starting with a Chunk, [__call__] raises the
    [ValueError] naming the two accepted shapes, and calls nothing; an
    empty inner list in first position is such a first element. *)
Theorem call_rejects_other_shapes (rest : list value) (st : State) :
  (forall first : value,
      isinstance_Chunk first = false ->
      starts_with_Chunk first = false ->
      __call__ cls (VList (first :: rest)) st =
      (Raise
         (ValueError
            "Invalid input type for Refinery: must be List[Chunk] or List[List[Chunk]]"),
       st)) /\
  __call__ cls (VList (VList [] :: rest)) st =
  (Raise
     (ValueError
        "Invalid input type for Refinery: must be List[Chunk] or List[List[Chunk]]"),
   st).
Proof.
  split; [|reflexivity].
  intros first Hc Hs. unfold __call__; simpl. rewrite Hc.
  unfold starts_with_Chunk in Hs.
  destruct (as_list first) as [[|first0 inner]|] eqn:Hl; try reflexivity.
  now rewrite Hs.
Qed.

(** C4. On anything that is not a list, and on the empty list,
    [__call__] returns its argument and leaves the state, call log
    included, as it was. *)
Theorem call_passes_through (chunks : value) (st : State) :
  isinstance_list chunks = false \/ chunks = VList [] ->
  __call__ cls chunks st = (Ok chunks, st).
Proof.
  unfold __call__, isinstance_list. intros [H | ->]; [|reflexivity].
  now destruct (as_list chunks).
Qed.

(** C10. The branch [__call__] takes on a non-empty list is decided by
    the first element alone: a Chunk in first position sends the whole
    list to [refine], a non-empty list starting with a Chunk in first
    position sends the whole outer list to [refine_batch], whatever the
    other elements are; and for a given first element the same one of
    the three branches is taken for every tail. *)
Theorem call_dispatches_on_first_element (first : value) :
  (isinstance_Chunk first = true ->
   forall (rest : list value) (st : State),
     __call__ cls (VList (first :: rest)) st =
     self_refine cls (VList (first :: rest)) st /\
     trace (snd (__call__ cls (VList (first :: rest)) st)) =
     trace st ++ [RefineCalled (VList (first :: rest))]) /\
  (starts_with_Chunk first = true ->
   forall (rest : list value) (st : State),
     __call__ cls (VList (first :: rest)) st =
     refine_batch cls (first :: rest) st /\
     exists j : nat,
       trace (snd (__call__ cls (VList (first :: rest)) st)) =
       trace st ++ RefineBatchCalled (first :: rest)
                :: map RefineCalled (firstn j (first :: rest))) /\
  ((forall (rest : list value) (st : State),
       __call__ cls (VList (first :: rest)) st =
       self_refine cls (VList (first :: rest)) st) \/
   (forall (rest : list value) (st : State),
       __call__ cls (VList (first :: rest)) st =
       refine_batch cls (first :: rest) st) \/
   (forall (rest : list value) (st : State),
       __call__ cls (VList (first :: rest)) st =
       (Raise invalid_input, st))).
Proof.
  assert (B : starts_with_Chunk first = true ->
              forall rest st,
                __call__ cls (VList (first :: rest)) st =
                refine_batch cls (first :: rest) st).
  { intros Hs rest st. unfold __call__; simpl.
    unfold starts_with_Chunk in Hs.
    destruct first; simpl in *; try discriminate.
    destruct items as [|first0 inner]; [discriminate|]. now rewrite Hs. }
  split; [|split].
  - intros Hc rest st. unfold __call__; simpl. rewrite Hc.
    split; [reflexivity | apply self_refine_trace].
  - intros Hs rest st. split; [now apply B|].
    rewrite (B Hs), refine_batch_unfold. unfold bind, ret.
    destruct (refine_each_trace (first :: rest) (entered (first :: rest) st))
      as [j Hj].
    exists j.
    destruct (refine_each cls (first :: rest) (entered (first :: rest) st))
      as [[rs|e] st1]; simpl in *; rewrite Hj, <- app_assoc; reflexivity.
  - destruct (isinstance_Chunk first) eqn:Hc.
    + left. intros rest st. unfold __call__; simpl. now rewrite Hc.
    + destruct (starts_with_Chunk first) eqn:Hs.
      * right; left. now apply B.
      * right; right. intros rest st.
        apply (proj1 (call_invalid_input rest st)); assumption.
Qed.

(** *** Construction and the instance's attribute *)

(** C5. [__init__] returns an instance exactly for the non-negative
    [context_size] values, and the instance then holds that value; for a
    negative one it raises [ValueError] and returns no instance. *)
Theorem init_succeeds_iff_nonnegative (n : Z) :
  (0 <= n -> __init__ n = Ok {| context_size := n |}) /\
  (n < 0 ->
   __init__ n = Raise (ValueError "context_size must be non-negative")) /\
  ((exists r : BaseRefinery, __init__ n = Ok r) <-> 0 <= n).
Proof.
  unfold __init__. destruct (Z.ltb_spec n 0) as [Hn | Hn].
  - repeat split; try lia; try reflexivity. now intros [r Hr].
  - repeat split; try lia; try reflexivity. intros _. now eexists.
Qed.

Lemma refine_each_context_size (batch : list value) (st : State) :
  (forall (chunks : value) (w : World),
      context_size (self (snd (refine_impl cls chunks w))) =
      context_size (self w)) ->
  context_size_of (snd (refine_each cls batch st)) = context_size_of st.
Proof.
  intros Hframe. revert st; induction batch as [|seq rest IH]; intros st;
    simpl; [reflexivity|].
  unfold bind at 1. rewrite self_refine_run.
  destruct (fst (refine_impl cls seq (world st))) as [r|e].
  - unfold bind, ret.
    match goal with
    | |- context [refine_each cls rest ?s] =>
        specialize (IH s); destruct (refine_each cls rest s) as [[rs|e] st2]
    end; simpl in *; rewrite IH; apply Hframe.
  - apply Hframe.
Qed.

(** C9. Provided the strategy's own [refine] does not assign the
    attribute, the instance is after [refine_batch], after [__call__] and
    after [__repr__], on every argument, the instance [__init__] built,
    and its [context_size] the value given at construction, as before the
    operation: [context_size] is all an instance holds, and no operation
    of the base class assigns it. *)
Theorem context_size_fixed_at_construction
    (n : Z) (r : BaseRefinery) (st : State) (max_str_digits : nat) :
  (forall (chunks : value) (w : World),
      context_size (self (snd (refine_impl cls chunks w))) =
      context_size (self w)) ->
  __init__ n = Ok r ->
  self (world st) = r ->
  context_size_of st = n /\
  (forall batch : list value,
      self (world (snd (refine_batch cls batch st))) = r /\
      context_size_of (snd (refine_batch cls batch st)) = n) /\
  (forall chunks : value,
      self (world (snd (__call__ cls chunks st))) = r /\
      context_size_of (snd (__call__ cls chunks st)) = n) /\
  self (world (snd (__repr__ cls max_str_digits st))) = r /\
  context_size_of (snd (__repr__ cls max_str_digits st)) = n.
Proof.
  intros Hframe Hinit Hself.
  assert (Hn : context_size_of st = n).
  { unfold context_size_of. rewrite Hself. unfold __init__ in Hinit.
    destruct (n <? 0); [discriminate|]. now injection Hinit as <-. }
  assert (Hr : forall st' : @State Chunk Heap,
             context_size_of st' = n ->
             self (world st') = r /\ context_size_of st' = n).
  { intros st' H. split; [|exact H]. unfold context_size_of in H, Hn.
    rewrite Hself in Hn. destruct (self (world st')) as [c'], r as [c].
    simpl in *. congruence. }
  assert (Hbatch : forall batch,
             context_size_of (snd (refine_batch cls batch st)) = n).
  { intros batch. rewrite refine_batch_unfold. unfold bind, ret.
    pose proof (refine_each_context_size batch (entered batch st) Hframe)
      as H.
    destruct (refine_each cls batch (entered batch st)) as [[rs|e] st1];
      simpl in *; rewrite H; exact Hn. }
  split; [exact Hn | split; [|split]].
  - intros batch. apply Hr, Hbatch.
  - intros chunks. apply Hr. unfold __call__.
    destruct (as_list chunks) as [[|first rest]|]; try exact Hn.
    destruct (isinstance_Chunk first).
    + rewrite self_refine_run. unfold context_size_of; simpl.
      rewrite Hframe. exact Hn.
    + destruct (as_list first) as [[|first0 inner]|]; try exact Hn.
      destruct (isinstance_Chunk first0); [apply Hbatch | exact Hn].
  - apply Hr. unfold __repr__.
    now destruct (str_int max_str_digits (context_size (self (world st)))).
Qed.

(** *** The bodies under [@abstractmethod] *)

(** C8. The body of [BaseRefinery.refine] raises [NotImplementedError]
    on every argument, also when reached through [self.refine] and
    through [__call__] on a list of chunks; the body of
    [BaseRefinery.is_available] returns [True] and raises nothing. *)
Theorem abstract_bodies :
  (forall (chunks : @value Chunk) (w : @World Heap),
      refine chunks w =
      (Raise
         (NotImplementedError
            "Refine method must be implemented by subclasses"), w)) /\
  (forall (chunks : @value Chunk) (st : @State Chunk Heap),
      fst (self_refine abstract_base chunks st) =
      Raise
        (NotImplementedError
           "Refine method must be implemented by subclasses")) /\
  (forall (c : Chunk) (rest : list value) (st : @State Chunk Heap),
      fst (__call__ abstract_base (VList (VChunk c :: rest)) st) =
      Raise
        (NotImplementedError
           "Refine method must be implemented by subclasses")) /\
  (forall w : @World Heap, @is_available Heap w = (Ok true, w)).
Proof. repeat split. Qed.

End Properties.

(** ** The statements at concrete inputs *)

Import Examples.
Local Open Scope string_scope.

Lemma call_on_batch_is_refine_batch_witness :
  refine_batch counting [doc ["Hello, "; "world"]; doc ["Bye"]] (start 2) =
  (Ok (VList [doc ["Hello, "; "world"]; doc ["Bye"]]),
   {| world := {| self := {| context_size := 2 |}; heap := 2%nat |};
      trace := [RefineBatchCalled [doc ["Hello, "; "world"]; doc ["Bye"]];
                RefineCalled (doc ["Hello, "; "world"]);
                RefineCalled (doc ["Bye"])] |}) /\
  exists rs : list value,
    VList [doc ["Hello, "; "world"]; doc ["Bye"]] = VList rs /\
    List.length rs = 2%nat.
Proof.
  split; [reflexivity|].
  destruct (proj2 (proj2 (call_on_batch_is_refine_batch counting))
              [doc ["Hello, "; "world"]; doc ["Bye"]] _ (start 2) _ eq_refl)
    as (rs & Hv & Hlen & _).
  exists rs. split; [exact Hv | exact Hlen].
Defined.

Lemma refine_batch_stops_at_first_error_witness :
  refine_batch picky [doc ["one"]; VInt 7; doc ["three"]] (start 0) =
  (Raise (TypeError "expected a list of chunks"),
   {| world := {| self := {| context_size := 0 |}; heap := 1%nat |};
      trace := [RefineBatchCalled [doc ["one"]; VInt 7; doc ["three"]];
                RefineCalled (doc ["one"]);
                RefineCalled (VInt 7)] |}).
Proof.
  eapply proj1.
  eapply (refine_batch_stops_at_first_error picky
            [doc ["one"]; VInt 7; doc ["three"]] _ 1 (VInt 7) (start 0)).
  - reflexivity.
  - reflexivity.
  - reflexivity.
Defined.

Lemma call_on_chunks_is_refine_witness :
  __call__ counting (doc ["Hello, "; "world"]) (start 1) =
  self_refine counting (doc ["Hello, "; "world"]) (start 1).
Proof.
  apply (call_on_chunks_is_refine counting _ (VChunk "Hello, ")
           [VChunk "world"]); reflexivity.
Defined.

Lemma call_rejects_other_shapes_witness :
  fst (__call__ counting (VList [VInt 3; VChunk "late"]) (start 1)) =
  Raise
    (ValueError
       "Invalid input type for Refinery: must be List[Chunk] or List[List[Chunk]]")
  /\
  fst (__call__ counting (VList [VList []; doc ["late"]]) (start 1)) =
  Raise
    (ValueError
       "Invalid input type for Refinery: must be List[Chunk] or List[List[Chunk]]").
Proof.
  split.
  - exact (f_equal fst
             (proj1 (call_rejects_other_shapes counting [VChunk "late"]
                       (start 1)) (VInt 3) eq_refl eq_refl)).
  - exact (f_equal fst
             (proj1 (call_rejects_other_shapes counting [doc ["late"]]
                       (start 1)) (VList []) eq_refl eq_refl)).
Defined.

Lemma call_passes_through_witness :
  __call__ counting (VStr "plain text") (start 1) =
  (Ok (VStr "plain text"), start 1) /\
  __call__ counting (VInt 42) (start 1) = (Ok (VInt 42), start 1) /\
  __call__ counting (VList []) (start 1) = (Ok (VList []), start 1).
Proof.
  split; [|split].
  - apply (call_passes_through counting). left; reflexivity.
  - apply (call_passes_through counting). left; reflexivity.
  - apply (call_passes_through counting). right; reflexivity.
Defined.

Lemma call_dispatches_on_first_element_witness :
  trace (snd (__call__ picky (VList [VChunk "first"; VInt 0; VNone])
                (start 0))) =
  [RefineCalled (VList [VChunk "first"; VInt 0; VNone])] /\
  __call__ picky (VList [doc ["first"]; VInt 0; VNone]) (start 0) =
  refine_batch picky [doc ["first"]; VInt 0; VNone] (start 0).
Proof.
  split.
  - apply (proj1 (call_dispatches_on_first_element picky (VChunk "first"))
             eq_refl [VInt 0; VNone] (start 0)).
  - apply (proj1 (proj2 (call_dispatches_on_first_element picky
                           (doc ["first"]))) eq_refl [VInt 0; VNone]
             (start 0)).
Defined.

Lemma init_succeeds_iff_nonnegative_witness :
  __init__ 3 = Ok {| context_size := 3 |} /\
  __init__ 0 = Ok {| context_size := 0 |} /\
  __init__ (-1) = Raise (ValueError "context_size must be non-negative").
Proof.
  split; [|split].
  - apply (proj1 (init_succeeds_iff_nonnegative 3)). lia.
  - apply (proj1 (init_succeeds_iff_nonnegative 0)). lia.
  - apply (proj1 (proj2 (init_succeeds_iff_nonnegative (-1)))). lia.
Defined.

Lemma context_size_fixed_at_construction_witness :
  self (world (snd (__call__ counting (VList [doc ["a"; "b"]; doc ["c"]])
                      (start 3)))) = {| context_size := 3 |} /\
  context_size_of
    (snd (__call__ counting (VList [doc ["a"; "b"]; doc ["c"]]) (start 3))) = 3
  /\
  context_size_of
    (snd (__repr__ counting default_int_max_str_digits (start 3))) = 3.
Proof.
  pose proof (context_size_fixed_at_construction counting 3
                {| context_size := 3 |} (start 3)
                default_int_max_str_digits
                (fun _ _ => eq_refl) eq_refl eq_refl)
    as (_ & _ & Hcall & _ & Hrepr).
  split; [apply Hcall | split; [apply Hcall | exact Hrepr]].
Defined.

(** C9, as the specification words it, for every instance: it fails on an
    instance whose [refine] assigns the attribute. *)
Lemma context_size_reassigned_by_refine :
  ~ (forall (cls : @Strategy text_chunk counter) (n : Z)
            (r : BaseRefinery) (st : @State text_chunk counter)
            (max_str_digits : nat),
        __init__ n = Ok r ->
        self (world st) = r ->
        context_size_of st = n /\
        (forall batch : list value,
            context_size_of (snd (refine_batch cls batch st)) = n) /\
        (forall chunks : value,
            context_size_of (snd (__call__ cls chunks st)) = n) /\
        context_size_of (snd (__repr__ cls max_str_digits st)) = n).
Proof.
  intros H.
  destruct (H bumping 3 {| context_size := 3 |} (start 3)
              default_int_max_str_digits eq_refl eq_refl)
    as (_ & _ & Hcall & _).
  specialize (Hcall (doc ["Hello, "; "world"])).
  discriminate Hcall.
Qed.

(** C8, as the specification words it, fails on [is_available]: its body
    returns. *)
Lemma is_available_does_not_raise :
  ~ ((forall (chunks : @value text_chunk) (w : @World counter),
         exists msg : string,
           fst (refine chunks w) = Raise (NotImplementedError msg)) /\
     (forall w : @World counter,
         exists msg : string,
           fst (is_available w) = Raise (NotImplementedError msg))).
Proof.
  intros [_ H].
  destruct (H {| self := {| context_size := 0 |}; heap := O |}) as [msg Hmsg].
  discriminate Hmsg.
Qed.

Example init_default :
  __init__ default_context_size = Ok {| context_size := 0 |}.
Proof. reflexivity. Qed.

Example repr_counting :
  fst (__repr__ counting default_int_max_str_digits (start 12)) =
  Ok "CountingRefinery(context_size=12)".
Proof. reflexivity. Qed.

Example call_bumping :
  context_size_of (snd (__call__ bumping (doc ["Hello, "; "world"]) (start 3)))
  = 4.
Proof. reflexivity. Qed.

(** ** Further properties of [refine_batch] and [__call__] *)

Local Open Scope list_scope.

Section Composition.

Context {Chunk Heap : Type}.
Variable cls : @Strategy Chunk Heap.

(** A run of [refine_each] that raises: the exception is the one the
    strategy raised on some input, the first to raise, and the log stops
    at that input. *)
Lemma refine_each_raise_inv (batch : list value) (st st' : State)
      (e : exn) :
  refine_each cls batch st = (Raise e, st') ->
  exists (k : nat) (seq : value) (w : World),
    nth_error batch k = Some seq /\
    fst (refine_impl cls seq w) = Raise e /\
    trace st' = trace st ++ map RefineCalled (firstn (S k) batch).
Proof.
  revert st; induction batch as [|x rest IH]; intros st; simpl.
  - unfold ret; discriminate.
  - unfold bind at 1. rewrite self_refine_run.
    destruct (fst (refine_impl cls x (world st))) as [r|e0] eqn:E.
    + unfold bind, ret.
      match goal with
      | |- context [refine_each cls rest ?s] =>
          destruct (refine_each cls rest s) as [[rs|e1] st2] eqn:E1
      end; [discriminate|].
      intros [= <- <-]. apply IH in E1 as (k & seq & w & Hk & Hw & Ht).
      exists (S k), seq, w. repeat split; try assumption.
      rewrite Ht; simpl. now rewrite <- app_assoc.
    + intros [= <- <-]. exists O, x, (world st). now repeat split.
Qed.

Lemma refine_batch_raises_only_from_refine_aux
    (batch : list value) (st st' : State) (e : exn) :
  refine_batch cls batch st = (Raise e, st') ->
  exists (k : nat) (seq : value) (w : World),
    nth_error batch k = Some seq /\
    fst (refine_impl cls seq w) = Raise e /\
    trace st' = trace (entered batch st)
                ++ map RefineCalled (firstn (S k) batch).
Proof.
  rewrite refine_batch_unfold. unfold bind, ret.
  destruct (refine_each cls batch (entered batch st)) as [[rs|e0] st1] eqn:E;
    [discriminate|].
  intros [= <- <-]. now apply refine_each_raise_inv in E.
Qed.

(** X1. When [refine_batch] raises, the exception is one the strategy's
    [refine] raised on an element of the batch, and the log shows calls on
    the elements up to that one and no further. *)
Theorem refine_batch_raises_only_from_refine
    (batch : list value) (st st' : State) (e : exn) :
  refine_batch cls batch st = (Raise e, st') ->
  exists (k : nat) (seq : value) (w : World),
    nth_error batch k = Some seq /\
    fst (refine_impl cls seq w) = Raise e /\
    trace st' =
    trace st ++ RefineBatchCalled batch
             :: map RefineCalled (firstn (S k) batch).
Proof.
  rewrite refine_batch_unfold. unfold bind, ret.
  destruct (refine_each cls batch (entered batch st)) as [[rs|e0] st1] eqn:E;
    [discriminate|].
  intros [= <- <-]. apply refine_each_raise_inv in E
    as (k & seq & w & Hk & Hw & Ht).
  exists k, seq, w. repeat split; try assumption.
  rewrite Ht. unfold entered; simpl. now rewrite <- app_assoc.
Qed.

Lemma refine_each_returns (batch : list value) (st : State) :
  (forall (chunks : value) (w : World),
      exists r : value, fst (refine_impl cls chunks w) = Ok r) ->
  exists (rs : list value) (st' : State),
    refine_each cls batch st = (Ok rs, st').
Proof.
  intros Htotal. revert st; induction batch as [|x rest IH]; intros st;
    simpl.
  - now exists [], st.
  - unfold bind at 1. rewrite self_refine_run.
    destruct (Htotal x (world st)) as [r Hr]. rewrite Hr.
    unfold bind, ret.
    match goal with
    | |- context [refine_each cls rest ?s] =>
        destruct (IH s) as (rs & st' & ->)
    end.
    now exists (r :: rs), st'.
Qed.

(** X2. If the strategy's [refine] returns on every input, [refine_batch]
    returns on every batch: a list with as many elements as the batch. *)
Theorem refine_batch_returns_when_refine_does
    (batch : list value) (st : State) :
  (forall (chunks : value) (w : World),
      exists r : value, fst (refine_impl cls chunks w) = Ok r) ->
  exists rs : list value,
    fst (refine_batch cls batch st) = Ok (VList rs) /\
    List.length rs = List.length batch.
Proof.
  intros Htotal. rewrite refine_batch_unfold. unfold bind, ret.
  destruct (refine_each_returns batch (entered batch st) Htotal)
    as (rs & st' & E).
  rewrite E. exists rs. split; [reflexivity|].
  apply refine_each_ok in E as [F _]. symmetry. exact (Forall2_length F).
Qed.

Lemma refine_each_pure (f : value -> value) (batch : list value)
      (st : State) :
  (forall (chunks : value) (w : World),
      refine_impl cls chunks w = (Ok (f chunks), w)) ->
  refine_each cls batch st =
  (Ok (map f batch),
   {| world := world st; trace := trace st ++ map RefineCalled batch |}).
Proof.
  intros Hpure. revert st; induction batch as [|x rest IH]; intros st;
    simpl.
  - unfold ret. rewrite app_nil_r. now destruct st.
  - unfold bind at 1. rewrite self_refine_run, Hpure; simpl.
    unfold bind, ret. rewrite IH; simpl. now rewrite <- app_assoc.
Qed.

(** X3. For a strategy whose [refine] is a function [f] of its argument,
    with no error and no effect on the world, [refine_batch] returns the
    list of [f] applied to each element, leaves the world as it was, and
    has called [refine] once on each element, in order. *)
Theorem refine_batch_of_pure_refine
    (f : value -> value) (batch : list value) (st : State) :
  (forall (chunks : value) (w : World),
      refine_impl cls chunks w = (Ok (f chunks), w)) ->
  refine_batch cls batch st =
  (Ok (VList (map f batch)),
   {| world := world st;
      trace := trace st ++ RefineBatchCalled batch
                        :: map RefineCalled batch |}).
Proof.
  intros Hpure. rewrite refine_batch_unfold. unfold bind, ret.
  rewrite (refine_each_pure f _ _ Hpure). unfold entered; simpl.
  now rewrite <- app_assoc.
Qed.

(** X4. [__call__] raises nothing of its own besides the invalid-input
    [ValueError]: when it raises, either it is that error and the state is
    untouched, or the exception is one the strategy's [refine] raised. *)
Theorem call_raises_only_invalid_input_or_from_refine
    (chunks : value) (st st' : State) (e : exn) :
  __call__ cls chunks st = (Raise e, st') ->
  (e = invalid_input /\ st' = st) \/
  (exists (seq : value) (w : World),
      fst (refine_impl cls seq w) = Raise e).
Proof.
  unfold __call__.
  destruct (as_list chunks) as [[|first rest]|]; try discriminate.
  destruct (isinstance_Chunk first).
  - rewrite self_refine_run. intros [= H _]. right.
    now exists chunks, (world st).
  - destruct (as_list first) as [[|first0 inner]|];
      try (intros [= <- <-]; now left).
    destruct (isinstance_Chunk first0);
      [|intros [= <- <-]; now left].
    intros H. right.
    apply refine_batch_raises_only_from_refine_aux in H
      as (k & seq & w & _ & Hw & _).
    now exists seq, w.
Qed.

(** *** The world changes through [refine] only *)

Lemma replay_app (evs evs' : list event) (w : World) :
  replay cls (evs ++ evs') w = replay cls evs' (replay cls evs w).
Proof. unfold replay. apply fold_left_app. Qed.

Lemma refine_each_replay (batch : list value) (st st' : State)
      (res : result (list value)) :
  refine_each cls batch st = (res, st') ->
  exists evs : list event,
    trace st' = trace st ++ evs /\
    world st' = replay cls evs (world st).
Proof.
  revert st st' res; induction batch as [|x rest IH]; intros st st' res;
    simpl.
  - unfold ret; intros [= _ <-]. exists []. now rewrite app_nil_r.
  - unfold bind at 1. rewrite self_refine_run.
    destruct (fst (refine_impl cls x (world st))) as [r|e].
    + unfold bind, ret.
      match goal with
      | |- context [refine_each cls rest ?s] =>
          destruct (refine_each cls rest s) as [res1 st2] eqn:E
      end.
      apply IH in E as (evs & Ht & Hw). simpl in Ht, Hw.
      intros H. assert (st2 = st') as <- by (destruct res1; now inversion H).
      exists (RefineCalled x :: evs). rewrite Ht, Hw, <- app_assoc.
      now split.
    + intros [= _ <-]. exists [RefineCalled x]. now split.
Qed.

Lemma refine_batch_replay (batch : list value) (st : State) :
  exists evs : list event,
    trace (snd (refine_batch cls batch st)) = trace st ++ evs /\
    world (snd (refine_batch cls batch st)) = replay cls evs (world st).
Proof.
  rewrite refine_batch_unfold. unfold bind, ret.
  destruct (refine_each cls batch (entered batch st)) as [res st1] eqn:E.
  apply refine_each_replay in E as (evs & Ht & Hw).
  exists (RefineBatchCalled batch :: evs).
  assert (G : trace st1 = trace st ++ RefineBatchCalled batch :: evs /\
              world st1 =
              replay cls (RefineBatchCalled batch :: evs) (world st)).
  { rewrite Ht, Hw. unfold entered; simpl. now rewrite <- app_assoc. }
  now destruct res.
Qed.

(** X5. Whatever [__call__] and [refine_batch] do to the world, the
    strategy's [refine] did it: after either, the log has grown by some
    calls, and the world is the one obtained from the world before by
    running [refine] on the logged arguments in order. With no call
    logged the world is unchanged. *)
Theorem world_changes_through_refine_only (st : State) :
  (forall chunks : value,
      exists evs : list event,
        trace (snd (__call__ cls chunks st)) = trace st ++ evs /\
        world (snd (__call__ cls chunks st)) = replay cls evs (world st)) /\
  (forall batch : list value,
      exists evs : list event,
        trace (snd (refine_batch cls batch st)) = trace st ++ evs /\
        world (snd (refine_batch cls batch st)) =
        replay cls evs (world st)).
Proof.
  split; [|intros batch; apply refine_batch_replay].
  intros chunks.
  assert (N : exists evs : list event,
             trace st = trace st ++ evs /\
             world st = replay cls evs (world st)).
  { exists []. now rewrite app_nil_r. }
  unfold __call__.
  destruct (as_list chunks) as [[|first rest]|]; try exact N.
  destruct (isinstance_Chunk first).
  - rewrite self_refine_run. exists [RefineCalled chunks]. now split.
  - destruct (as_list first) as [[|first0 inner]|]; try exact N.
    destruct (isinstance_Chunk first0); [apply refine_batch_replay | exact N].
Qed.

(** *** Batches compose *)

Lemma refine_each_app (b1 b2 : list value) (st : State) :
  refine_each cls (b1 ++ b2) st =
  (r1 <- refine_each cls b1 ;;
   r2 <- refine_each cls b2 ;;
   ret (r1 ++ r2)) st.
Proof.
  revert st; induction b1 as [|x b1 IH]; intros st; simpl.
  - unfold bind, ret; simpl.
    now destruct (refine_each cls b2 st) as [[r2|e] st2].
  - unfold bind at 1 3 4.
    destruct (self_refine cls x st) as [[r|e] st0]; [|reflexivity].
    unfold bind at 1 3. rewrite IH. unfold bind, ret.
    destruct (refine_each cls b1 st0) as [[r1|e] st1]; [|reflexivity].
    now destruct (refine_each cls b2 st1) as [[r2|e] st2].
Qed.

(** What [refine_each] returns and what it does to the world depend on
    the world it starts in, not on the log. *)
Lemma refine_each_world (batch : list value) (st st' st1 : State)
      (res : result (list value)) :
  world st = world st' ->
  refine_each cls batch st = (res, st1) ->
  exists st1' : State,
    refine_each cls batch st' = (res, st1') /\ world st1' = world st1.
Proof.
  revert st st' st1 res; induction batch as [|x rest IH];
    intros st st' st1 res Hw; simpl.
  - unfold ret; intros [= <- <-]. now exists st'.
  - unfold bind, ret. rewrite !self_refine_run, <- Hw.
    destruct (fst (refine_impl cls x (world st))) as [r|e].
    + match goal with
      | |- context [refine_each cls rest ?s] =>
          destruct (refine_each cls rest s) as [res1 st2] eqn:E
      end.
      apply (IH _ {| world := snd (refine_impl cls x (world st));
                     trace := trace st' ++ [RefineCalled x] |}) in E
        as (st2' & E' & Hw2); [|reflexivity].
      rewrite E'. intros H. exists st2'.
      destruct res1; inversion H; subst; now split.
    + intros [= <- <-]. eexists; split; reflexivity.
Qed.

(** X6. Refining a batch [b1] and then, in the state that leaves, a batch
    [b2], both without error, gives the results that refining [b1 ++ b2]
    in one call gives, and leaves the same world. *)
Theorem refine_batch_app (b1 b2 r1 r2 : list value) (st st1 st2 : State) :
  refine_batch cls b1 st = (Ok (VList r1), st1) ->
  refine_batch cls b2 st1 = (Ok (VList r2), st2) ->
  fst (refine_batch cls (b1 ++ b2) st) = Ok (VList (r1 ++ r2)) /\
  world (snd (refine_batch cls (b1 ++ b2) st)) = world st2.
Proof.
  intros H1 H2. rewrite refine_batch_unfold in H1, H2.
  unfold bind, ret in H1, H2.
  destruct (refine_each cls b1 (entered b1 st)) as [[q1|e] s1] eqn:E1;
    [|discriminate].
  destruct (refine_each cls b2 (entered b2 st1)) as [[q2|e] s2] eqn:E2;
    [|discriminate].
  injection H1 as -> ->. injection H2 as -> ->.
  apply (refine_each_world _ _ (entered (b1 ++ b2) st)) in E1
    as (s1' & E1' & W1); [|reflexivity].
  apply (refine_each_world _ _ s1') in E2 as (s2' & E2' & W2);
    [|now rewrite W1].
  rewrite refine_batch_unfold. unfold bind. rewrite refine_each_app.
  unfold bind, ret. rewrite E1', E2'. now split.
Qed.

Lemma refine_each_call_each (batch : list value) (st : State) :
  forallb starts_with_Chunk batch = true ->
  refine_each cls batch st = call_each cls batch st.
Proof.
  revert st; induction batch as [|seq rest IH]; intros st; simpl;
    [reflexivity|].
  intros [Hs Hrest]%andb_prop.
  assert (C : __call__ cls seq st = self_refine cls seq st).
  { unfold __call__. unfold starts_with_Chunk in Hs.
    destruct (as_list seq) as [[|first0 inner]|]; try discriminate.
    now rewrite Hs. }
  unfold bind at 1 3. rewrite C.
  destruct (self_refine cls seq st) as [[r|e] st0]; [|reflexivity].
  unfold bind. now rewrite IH.
Qed.

(** X7. On a non-empty batch in which every document is a non-empty list
    starting with a Chunk, [__call__] does what calling [__call__] on
    each document in order does, and returns the list of those results. *)
Theorem call_on_batch_is_call_on_each (batch : list value) (st : State) :
  batch <> [] ->
  forallb starts_with_Chunk batch = true ->
  __call__ cls (VList batch) st =
  (rs <- call_each cls batch ;; ret (VList rs)) (entered batch st).
Proof.
  intros Hne Hall. destruct batch as [|first rest]; [contradiction|].
  assert (Hs : starts_with_Chunk first = true)
    by (simpl in Hall; now apply andb_prop in Hall).
  assert (C : __call__ cls (VList (first :: rest)) st =
              refine_batch cls (first :: rest) st).
  { unfold __call__; simpl. unfold starts_with_Chunk in Hs.
    destruct first; simpl in *; try discriminate.
    destruct items as [|first0 inner]; [discriminate|]. now rewrite Hs. }
  rewrite C, refine_batch_unfold. unfold bind.
  now rewrite (refine_each_call_each _ _ Hall).
Qed.

(** *** The representation *)

Lemma append_inj_l (p a b : string) :
  (p ++ a)%string = (p ++ b)%string -> a = b.
Proof. induction p as [|c p IH]; simpl; [trivial | intros [= H]; auto]. Qed.

Lemma append_inj_r (a b : string) (c : ascii) :
  (a ++ String c "")%string = (b ++ String c "")%string -> a = b.
Proof.
  revert b; induction a as [|x a IH]; intros [|y b]; simpl; trivial.
  - intros [= _ H]. now destruct b.
  - intros [= _ H]. now destruct a.
  - intros [= -> H]. f_equal. now apply IH.
Qed.

(** A decimal numeral is read back as the [int] it was printed from. *)
Lemma decimal_inj (n m : Z) : decimal n = decimal m -> n = m.
Proof.
  unfold decimal. intros H.
  assert (N : forall z : Z,
             NilZero.int_of_string (NilZero.string_of_int (Z.to_int z)) =
             Some (Z.to_int z)).
  { intros z. apply NilZero.isi; intros E;
      pose proof (DecimalZ.to_of (Z.to_int z)) as T;
      rewrite DecimalZ.of_to, E in T; discriminate T. }
  apply DecimalZ.to_int_inj.
  pose proof (N n) as Hn. rewrite H, N in Hn. now injection Hn.
Qed.

(** X8. [__repr__] changes nothing. When [context_size] has no more
    decimal digits than the interpreter's limit, or there is no limit, it
    returns the class name followed by [(context_size=...)] with the
    decimal numeral; with more digits it raises [ValueError]. For one
    class, two calls that return the same string were made on equal
    [context_size] values. *)
Theorem repr_tells_context_size
    (max_str_digits : nat) (st st' : State) :
  snd (__repr__ cls max_str_digits st) = st /\
  ((max_str_digits = 0 \/
    String.length (decimal (Z.abs (context_size_of st))) <= max_str_digits)%nat
   ->
   fst (__repr__ cls max_str_digits st) =
   Ok (__name__ cls ++ "(context_size="
       ++ decimal (context_size_of st) ++ ")")%string) /\
  ((0 < max_str_digits /\
    max_str_digits < String.length (decimal (Z.abs (context_size_of st))))%nat
   ->
   exists msg : string,
     fst (__repr__ cls max_str_digits st) = Raise (ValueError msg)) /\
  (forall s : string,
      fst (__repr__ cls max_str_digits st) = Ok s ->
      fst (__repr__ cls max_str_digits st') = Ok s ->
      context_size_of st = context_size_of st').
Proof.
  unfold __repr__, str_int, context_size_of.
  split; [|split; [|split]].
  - now destruct (_ && _)%bool.
  - intros H.
    destruct (Nat.ltb_spec 0 max_str_digits) as [H0|H0];
      destruct (Nat.ltb_spec max_str_digits
                  (String.length
                     (decimal (Z.abs (context_size (self (world st)))))))
        as [H1|H1]; simpl; try reflexivity.
    destruct H as [H|H]; lia.
  - intros [H0 H1].
    apply Nat.ltb_lt in H0, H1. rewrite H0, H1; simpl. now eexists.
  - intros s.
    destruct (_ && _)%bool; [discriminate|].
    destruct (_ && _)%bool; [discriminate|].
    cbn [fst]. intros [= <-] [= H].
    apply append_inj_l in H. simpl in H. injection H as H.
    now apply append_inj_r, decimal_inj in H.
Qed.

End Composition.

(** ** The further statements at concrete inputs *)

Example decimal_examples :
  decimal 0 = "0" /\ decimal 128 = "128" /\ decimal (-5) = "-5".
Proof. repeat split. Qed.

(** At the default limit: 4300 digits are converted, 4301 are not. *)
Example str_int_at_the_limit :
  str_int default_int_max_str_digits (10 ^ 4300) =
  Raise
    (ValueError
       "Exceeds the limit (4300 digits) for integer string conversion; use sys.set_int_max_str_digits() to increase the limit")
  /\
  str_int default_int_max_str_digits (10 ^ 4300 - 1) =
  Ok (decimal (10 ^ 4300 - 1)) /\
  str_int default_int_max_str_digits (- (10 ^ 4300 - 1)) =
  Ok (decimal (- (10 ^ 4300 - 1))) /\
  str_int 0 (10 ^ 4300) = Ok (decimal (10 ^ 4300)).
Proof. repeat split; vm_compute; reflexivity. Qed.

Lemma refine_batch_raises_only_from_refine_witness :
  exists (k : nat) (seq : value) (w : World),
    nth_error [doc ["one"]; VInt 7; doc ["three"]] k = Some seq /\
    fst (refine_impl picky seq w) =
    Raise (TypeError "expected a list of chunks") /\
    trace (snd (refine_batch picky [doc ["one"]; VInt 7; doc ["three"]]
                  (start 0))) =
    trace (start 0)
    ++ RefineBatchCalled [doc ["one"]; VInt 7; doc ["three"]]
       :: map RefineCalled
            (firstn (S k) [doc ["one"]; VInt 7; doc ["three"]]).
Proof.
  apply (refine_batch_raises_only_from_refine picky
           [doc ["one"]; VInt 7; doc ["three"]] (start 0)
           (snd (refine_batch picky [doc ["one"]; VInt 7; doc ["three"]]
                   (start 0)))
           (TypeError "expected a list of chunks")).
  reflexivity.
Defined.

Lemma refine_batch_returns_when_refine_does_witness :
  exists rs : list value,
    fst (refine_batch reversing [doc ["a"; "b"]; VInt 1; doc []] (start 0)) =
    Ok (VList rs) /\
    List.length rs = 3%nat.
Proof.
  apply (refine_batch_returns_when_refine_does reversing
           [doc ["a"; "b"]; VInt 1; doc []] (start 0)).
  intros chunks w. exists (reversed chunks). reflexivity.
Defined.

Lemma refine_batch_of_pure_refine_witness :
  refine_batch reversing [doc ["a"; "b"]; doc ["c"]] (start 4) =
  (Ok (VList [doc ["b"; "a"]; doc ["c"]]),
   {| world := world (start 4);
      trace := trace (start 4)
               ++ RefineBatchCalled [doc ["a"; "b"]; doc ["c"]]
                  :: map RefineCalled [doc ["a"; "b"]; doc ["c"]] |}).
Proof.
  apply (refine_batch_of_pure_refine reversing reversed
           [doc ["a"; "b"]; doc ["c"]] (start 4)).
  intros chunks w. reflexivity.
Defined.

Lemma call_raises_only_invalid_input_or_from_refine_witness :
  (TypeError "expected a list of chunks" = invalid_input /\
   snd (__call__ picky (VList [doc ["one"]; VInt 7]) (start 0)) = start 0) \/
  (exists (seq : value) (w : World),
      fst (refine_impl picky seq w) =
      Raise (TypeError "expected a list of chunks")).
Proof.
  apply (call_raises_only_invalid_input_or_from_refine picky
           (VList [doc ["one"]; VInt 7]) (start 0)).
  reflexivity.
Defined.

Lemma refine_batch_app_witness :
  fst (refine_batch counting ([doc ["a"]] ++ [doc ["b"; "c"]]) (start 0)) =
  Ok (VList ([doc ["a"]] ++ [doc ["b"; "c"]])) /\
  world (snd (refine_batch counting ([doc ["a"]] ++ [doc ["b"; "c"]])
                (start 0))) =
  {| self := {| context_size := 0 |}; heap := 2%nat |}.
Proof.
  apply (refine_batch_app counting [doc ["a"]] [doc ["b"; "c"]]
           [doc ["a"]] [doc ["b"; "c"]] (start 0)
           (snd (refine_batch counting [doc ["a"]] (start 0)))
           {| world := {| self := {| context_size := 0 |}; heap := 2%nat |};
              trace := [RefineBatchCalled [doc ["a"]];
                        RefineCalled (doc ["a"]);
                        RefineBatchCalled [doc ["b"; "c"]];
                        RefineCalled (doc ["b"; "c"])] |});
    reflexivity.
Defined.

Lemma call_on_batch_is_call_on_each_witness :
  __call__ counting (VList [doc ["a"]; doc ["b"; "c"]]) (start 0) =
  (rs <- call_each counting [doc ["a"]; doc ["b"; "c"]] ;; ret (VList rs))
    (entered [doc ["a"]; doc ["b"; "c"]] (start 0)).
Proof.
  apply (call_on_batch_is_call_on_each counting
           [doc ["a"]; doc ["b"; "c"]] (start 0)).
  - discriminate.
  - reflexivity.
Defined.

Lemma repr_tells_context_size_witness :
  fst (__repr__ counting default_int_max_str_digits (start 12)) =
  Ok "CountingRefinery(context_size=12)" /\
  context_size_of (start 12) =
  context_size_of
    {| world := {| self := {| context_size := 12 |}; heap := 5%nat |};
       trace := [RefineCalled (doc ["seen"])] |}.
Proof.
  pose proof (repr_tells_context_size counting default_int_max_str_digits
                (start 12)
                {| world := {| self := {| context_size := 12 |};
                               heap := 5%nat |};
                   trace := [RefineCalled (doc ["seen"])] |})
    as (_ & Hok & _ & Hinj).
  split.
  - apply Hok. right. vm_compute. lia.
  - apply (Hinj "CountingRefinery(context_size=12)"); reflexivity.
Defined.
